(** * cosfs: the path codec, listing cache and batch planner of
      [BaseCOSFileSystem] (src/cosfs/base.py)

    A shallow embedding of the methods of [BaseCOSFileSystem] and the
    properties of the path/namespace model stated for them.

    Python strings are modelled by [string].  The only characters the code
    inspects are the ASCII slash and the ASCII prefix [cos://], so slicing by
    bytes and slicing by code points agree wherever the code slices. *)

From Stdlib Require Import ZArith Ascii String.
From Equations Require Import Equations.
From stdpp Require Import gmap strings list fin_maps fin_sets.

Local Open Scope string_scope.

(** ** Python string methods used by the source *)

Module PyStr.

(** [s.startswith(pre)] *)
Fixpoint startswith (pre s : string) : bool :=
  match pre, s with
  | EmptyString, _ => true
  | String _ _, EmptyString => false
  | String a pre', String b s' =>
      if Ascii.eqb a b then startswith pre' s' else false
  end.

(** [s[n:]] *)
Fixpoint slice_from (n : nat) (s : string) : string :=
  match n, s with
  | O, _ => s
  | S _, EmptyString => EmptyString
  | S n', String _ s' => slice_from n' s'
  end.

(** [s[:n]] *)
Fixpoint slice_to (n : nat) (s : string) : string :=
  match n, s with
  | O, _ => EmptyString
  | S _, EmptyString => EmptyString
  | S n', String c s' => String c (slice_to n' s')
  end.

(** [c in chars] for a character [c] *)
Fixpoint in_chars (c : ascii) (chars : string) : bool :=
  match chars with
  | EmptyString => false
  | String d chars' => if Ascii.eqb c d then true else in_chars c chars'
  end.

(** [s.lstrip(chars)]: drops the leading characters that occur in [chars]. *)
Fixpoint lstrip (chars s : string) : string :=
  match s with
  | EmptyString => EmptyString
  | String c s' => if in_chars c chars then lstrip chars s' else s
  end.

(** [s.find(sub)]: index of the first occurrence, [None] for Python's -1. *)
Fixpoint find (sub s : string) : option nat :=
  if startswith sub s then Some O
  else match s with
       | EmptyString => None
       | String _ s' => option_map S (find sub s')
       end.

(** [s.rfind(sub)]: index of the last occurrence. *)
Fixpoint rfind (sub s : string) : option nat :=
  match s with
  | EmptyString => if startswith sub s then Some O else None
  | String _ s' =>
      match rfind sub s' with
      | Some i => Some (S i)
      | None => if startswith sub s then Some O else None
      end
  end.

(** [sub in s] *)
Definition contains (sub s : string) : bool :=
  match find sub s with Some _ => true | None => false end.

(** [s.split(sep, 1)]: at most one split, at the first occurrence. *)
Definition split1 (sep s : string) : list string :=
  match find sep s with
  | None => [s]
  | Some i => [slice_to i s; slice_from (i + String.length sep) s]
  end.

(** [s.rsplit(sep, 1)]: at most one split, at the last occurrence. *)
Definition rsplit1 (sep s : string) : list string :=
  match rfind sep s with
  | None => [s]
  | Some i => [slice_to i s; slice_from (i + String.length sep) s]
  end.

(** Truthiness of a string: [bool(s)]. *)
Definition truthy (s : string) : bool :=
  match s with EmptyString => false | String _ _ => true end.

End PyStr.

(** ** Exceptions

    The specification's [InvalidArgument] is the source's [ValueError], its
    [NotImplemented] is [NotImplementedError]. *)

Inductive exn : Type :=
| ValueError (msg : string)
| KeyError (msg : string)
| NotImplementedError.

(** Pure code that may raise. *)
Definition result (A : Type) : Type := exn + A.

(** ** Path codec *)

(** Modelled from the spec: the root marker that [_strip_protocol] falls back
    to is a constant of the filesystem framework's base class, which
    [BaseCOSFileSystem] inherits unchanged; the framework defines it as the
    empty string. *)
Definition root_marker : string := "".

(** Modelled from the spec: [stringify_path] is the framework's coercion of
    path-like objects to strings; on a string it is the identity. *)
Definition stringify_path (path : string) : string := path.

(** The argument of [_strip_protocol]: a string or a list of arguments. *)
#[warnings="-register-all"]
Inductive path_arg : Type :=
| PStr (s : string)
| PList (l : list path_arg).

(** The string branch of [_strip_protocol] (base.py, lines 130-133). *)
Definition _strip_protocol (path : string) : string :=
  let path_string := stringify_path path in
  let path_string :=
    if PyStr.startswith "cos://" path_string
    then PyStr.slice_from 5 path_string
    else path_string in
  if PyStr.truthy path_string then path_string else root_marker.

(** [_strip_protocol] on a string or a list (base.py, lines 128-133). *)
Fixpoint _strip_protocol_arg (path : path_arg) : path_arg :=
  match path with
  | PList l => PList (List.map _strip_protocol_arg l)
  | PStr s => PStr (_strip_protocol s)
  end.

(** Unpacking [a, b = xs]: raises unless [xs] has exactly two elements. *)
Definition unpack2 (xs : list string) : result (string * string) :=
  match xs with
  | [a; b] => inr (a, b)
  | [] | [_] => inl (ValueError "not enough values to unpack")
  | _ => inl (ValueError "too many values to unpack")
  end.

(** [split_path] (base.py, lines 151-156). *)
Definition split_path (path : string) : result (string * string) :=
  let path := _strip_protocol path in
  let path := PyStr.lstrip "/" path in
  if negb (PyStr.contains "/" path) then inr (path, "")
  else
    match unpack2 (PyStr.split1 "/" path) with
    | inl e => inl e
    | inr (bucket_name, obj_name) => inr (bucket_name, obj_name)
    end.

(** Modelled from the spec: [_parent] is the framework's path-ancestor
    helper, inherited by [BaseCOSFileSystem].  As the framework defines it, it
    strips the protocol (with the method above), cuts the path at its last
    slash, strips the root marker's characters from the left and puts the
    root marker in front; a path without a slash has the root marker as
    parent. *)
Definition _parent (path : string) : string :=
  let path := _strip_protocol path in
  if PyStr.contains "/" path then
    let parent := PyStr.lstrip root_marker (hd path (PyStr.rsplit1 "/" path)) in
    root_marker ++ parent
  else root_marker.

(** ** Termination measure of the ancestor walk

    [invalidate_cache] replaces a non-empty path by its parent until the path
    is empty; the parent of a non-empty path is strictly shorter. *)

Lemma length_slice_from (n : nat) (s : string) :
  String.length (PyStr.slice_from n s) <= String.length s.
Proof.
  revert s; induction n as [|n IH]; intros [|c s]; simpl; try lia.
  specialize (IH s); lia.
Qed.

Lemma length_slice_to (n : nat) (s : string) :
  String.length (PyStr.slice_to n s) <= n.
Proof.
  revert s; induction n as [|n IH]; intros [|c s]; simpl; try lia.
  specialize (IH s); lia.
Qed.

Lemma length_lstrip (chars s : string) :
  String.length (PyStr.lstrip chars s) <= String.length s.
Proof.
  induction s as [|c s IH]; simpl; [lia|].
  destruct (PyStr.in_chars c chars); simpl; lia.
Qed.

Lemma startswith_length (pre s : string) :
  PyStr.startswith pre s = true -> String.length pre <= String.length s.
Proof.
  revert s; induction pre as [|a pre IH]; intros [|b s]; simpl; try lia; try discriminate.
  destruct (Ascii.eqb a b); [|discriminate].
  intros H; apply IH in H; lia.
Qed.

Lemma rfind_bound (sub s : string) (i : nat) :
  PyStr.rfind sub s = Some i -> i + String.length sub <= String.length s.
Proof.
  revert i; induction s as [|c s IH]; intros i; simpl.
  - destruct sub; simpl; [|discriminate]. intros [= <-]; simpl; lia.
  - destruct (PyStr.rfind sub s) as [j|].
    + intros [= <-]. specialize (IH j eq_refl); lia.
    + destruct (PyStr.startswith sub (String c s)) eqn:E; [|discriminate].
      intros [= <-]. apply startswith_length in E; simpl in *; lia.
Qed.

Lemma find_rfind (sub s : string) (i : nat) :
  PyStr.find sub s = Some i -> exists j, PyStr.rfind sub s = Some j.
Proof.
  revert i; induction s as [|c s IH]; intros i.
  - simpl. destruct (PyStr.startswith sub ""); [eauto|discriminate].
  - cbn [PyStr.find PyStr.rfind].
    destruct (PyStr.startswith sub (String c s)) eqn:E.
    + intros _. destruct (PyStr.rfind sub s); eauto.
    + destruct (PyStr.find sub s) as [k|]; [|discriminate].
      intros _. destruct (IH k eq_refl) as [j ->]; eauto.
Qed.

Lemma length_strip_protocol (path : string) :
  String.length (_strip_protocol path) <= String.length path.
Proof.
  unfold _strip_protocol, stringify_path, root_marker.
  destruct (PyStr.startswith "cos://" path).
  - pose proof (length_slice_from 5 path).
    destruct (PyStr.slice_from 5 path); simpl in *; lia.
  - destruct path; simpl; lia.
Qed.

Lemma length_parent (path : string) :
  path <> "" -> String.length (_parent path) < String.length path.
Proof.
  intros Hne. unfold _parent, root_marker.
  pose proof (length_strip_protocol path) as Hs.
  assert (0 < String.length path) as Hpos by (destruct path; simpl; [congruence|lia]).
  destruct (PyStr.contains "/" (_strip_protocol path)) eqn:Hc; [|simpl; lia].
  unfold PyStr.contains in Hc.
  destruct (PyStr.find "/" (_strip_protocol path)) as [i|] eqn:Hf; [|discriminate].
  destruct (find_rfind _ _ _ Hf) as [j Hj].
  unfold PyStr.rsplit1. rewrite Hj. cbn [hd].
  pose proof (rfind_bound _ _ _ Hj) as Hb.
  pose proof (length_slice_to j (_strip_protocol path)) as Ht.
  pose proof (length_lstrip "" (PyStr.slice_to j (_strip_protocol path))) as Hl.
  change ("" ++ ?x) with x. simpl in Hb. lia.
Qed.

(** ** The filesystem object and its listing cache *)

(** A child metadata record of a cached listing. *)
Inductive entry_type : Type := file | directory.

Record info : Type := mk_info {
  info_name : string;
  info_type : entry_type;
  info_size : Z
}.

(** The attributes of a [BaseCOSFileSystem] instance that the methods below
    read or write; [dircache] is the directory cache inherited from the
    framework, a mapping from directory path to its listing. *)
Record fs : Type := mk_fs {
  _endpoint : option string;
  _default_block_size : Z;
  _default_cache_type : string;
  dircache : gmap string (list info)
}.

Definition set_endpoint_attr (e : option string) (s : fs) : fs :=
  mk_fs e (_default_block_size s) (_default_cache_type s) (dircache s).

Definition set_dircache (dc : gmap string (list info)) (s : fs) : fs :=
  mk_fs (_endpoint s) (_default_block_size s) (_default_cache_type s) dc.

(** Methods run on the instance and either return or raise; what they wrote
    to the instance before raising stays written. *)
Definition M (A : Type) : Type := fs -> result A * fs.

Definition ret {A : Type} (a : A) : M A := fun s => (inr a, s).

Definition raise {A : Type} (e : exn) : M A := fun s => (inl e, s).

Definition bind {A B : Type} (m : M A) (k : A -> M B) : M B :=
  fun s =>
    match m s with
    | (inr a, s') => k a s'
    | (inl e, s') => (inl e, s')
    end.

Definition lift {A : Type} (r : result A) : M A := fun s => (r, s).

Declare Scope py_scope.
Delimit Scope py_scope with py.
Notation "'let*' x := m 'in' k" := (bind m (fun x => k))
  (at level 10, x name, m at level 100, k at level 200) : py_scope.
Notation "'let*' ' pat := m 'in' k" :=
  (bind m (fun x => match x with pat => k end))
  (at level 10, pat pattern, m at level 100, k at level 200) : py_scope.
Notation "'run' m 'in' k" := (bind m (fun _ => k))
  (at level 10, m at level 100, k at level 200) : py_scope.
Local Open Scope py_scope.

(** [for x in xs: body], threading the loop's local variables [acc]. *)
Fixpoint for_each {A B : Type} (xs : list A) (acc : B) (body : B -> A -> M B) : M B :=
  match xs with
  | [] => ret acc
  | x :: xs' => let* acc' := body acc x in for_each xs' acc' body
  end.

(** The loop of [invalidate_cache] (base.py, lines 165-167):
    [while norm_path: dircache.pop(norm_path, None); norm_path = _parent(norm_path)]. *)
Equations? invalidate_loop (norm_path : string) (dc : gmap string (list info)) :
    gmap string (list info) by wf (String.length norm_path) lt :=
  invalidate_loop EmptyString dc := dc;
  invalidate_loop (String c rest) dc :=
    invalidate_loop (_parent (String c rest)) (delete (String c rest) dc).
Proof. apply length_parent. discriminate. Qed.

(** [invalidate_cache] (base.py, lines 158-167). *)
Definition invalidate_cache (path : option string) : M unit :=
  fun s =>
    match path with
    | None => (inr tt, set_dircache ∅ s)
    | Some path =>
        let norm_path := _strip_protocol path in
        let norm_path := PyStr.lstrip "/" norm_path in
        let dc := delete norm_path (dircache s) in
        (inr tt, set_dircache (invalidate_loop norm_path dc) s)
    end.

(** ** Construction and endpoint *)

Definition DEFAULT_POOL_SIZE : Z := 20.
Definition DEFAULT_BLOCK_SIZE : Z := 5 * 2 ^ 20.
Definition SIMPLE_TRANSFER_THRESHOLD : Z := 100 * 1024 * 1024.

(** Truthiness of an optional string and of an optional integer. *)
Definition truthy_str (o : option string) : bool :=
  match o with Some s => PyStr.truthy s | None => false end.

Definition truthy_int (o : option Z) : bool :=
  match o with Some n => negb (n =? 0)%Z | None => false end.

(** [__init__] (base.py, lines 84-99).  [getenv] is the process environment;
    the warning is only logged; the framework's constructor starts with an
    empty directory cache. *)
Definition __init__ (getenv : string -> option string)
    (endpoint key secret token : option string)
    (default_cache_type : string) (default_block_size : option Z) : fs :=
  {| _endpoint := if truthy_str endpoint then endpoint else getenv "COS_ENDPOINT";
     _default_block_size :=
       match default_block_size with
       | Some n => if (n =? 0)%Z then DEFAULT_BLOCK_SIZE else n
       | None => DEFAULT_BLOCK_SIZE
       end;
     _default_cache_type := default_cache_type;
     dircache := ∅ |}.

(** [set_endpoint] (base.py, lines 109-111). *)
Definition set_endpoint (endpoint : option string) : M unit :=
  if negb (truthy_str endpoint) then raise (ValueError "Not a valid endpoint")
  else fun s => (inr tt, set_endpoint_attr endpoint s).

(** ** Batch planner *)

(** [_verify_find_arguments] (base.py, lines 172-181). *)
Definition _verify_find_arguments (path : string) (maxdepth : option Z)
    (withdirs : bool) (prefix : string) : result string :=
  let path := _strip_protocol path in
  match split_path path with
  | inl e => inl e
  | inr (bucket, _) =>
      if negb (PyStr.truthy bucket) then
        inl (ValueError "Cannot traverse all of the buckets")
      else if (withdirs || truthy_int maxdepth) && PyStr.truthy prefix then
        inl (ValueError
          "Can not specify 'prefix' option alongside 'withdirs'/'maxdepth' options.")
      else inr path
  end.

(** [buckets.pop()]: removes and returns an arbitrary element of the set, and
    raises [KeyError] on the empty set.  The element taken here is the first
    of [elements]; the code reaches the call only with at most one element. *)
Definition set_pop (buckets : gset string) : M (string * gset string) :=
  match elements buckets with
  | [] => raise (KeyError "pop from an empty set")
  | b :: _ => ret (b, buckets ∖ {[b]})
  end.

(** [_get_batch_delete_key_list] (base.py, lines 184-197). *)
Definition _get_batch_delete_key_list (pathlist : list string) :
    M (string * list string) :=
  let* '(buckets, key_list) :=
    for_each pathlist (∅ : gset string, [] : list string)
      (fun '(buckets, key_list) path =>
         let* '(bucket, key) := lift (split_path path) in
         ret ({[bucket]} ∪ buckets, (key_list ++ [key])%list)) in
  if decide (1 < size buckets) then
    raise (ValueError "Bulk delete files should refer to only one bucket")
  else
    let* '(bucket, _) := set_pop buckets in
    if decide (1000 < length pathlist) then
      raise (ValueError "Max number of files to delete in one call is 1000")
    else
      run for_each pathlist tt
            (fun _ path => invalidate_cache (Some (_parent path))) in
      ret (bucket, key_list).

(** ** Opening files *)

(** A Python value passed in a keyword-argument bag. *)
Inductive pyval : Type :=
| VNone
| VBool (b : bool)
| VInt (n : Z)
| VStr (s : string).

(** What the constructor of [OSSFile] receives (base.py, lines 225-234). *)
Record OSSFile : Type := mk_OSSFile {
  file_path : string;
  file_mode : string;
  file_block_size : option Z;
  file_autocommit : bool;
  file_cache_options : option string;
  file_cache_type : pyval;
  file_kwargs : gmap string pyval
}.

(** [kwargs.pop(key, default)] *)
Definition kwargs_pop (key : string) (default : pyval) (kwargs : gmap string pyval) :
    pyval * gmap string pyval :=
  match kwargs !! key with
  | Some v => (v, delete key kwargs)
  | None => (default, kwargs)
  end.

(** [_open] (base.py, lines 224-234). *)
Definition _open (self : fs) (path mode : string) (block_size : option Z)
    (autocommit : bool) (cache_options : option string)
    (kwargs : gmap string pyval) : OSSFile :=
  let '(cache_type, kwargs) :=
    kwargs_pop "cache_type" (VStr (_default_cache_type self)) kwargs in
  {| file_path := path;
     file_mode := mode;
     file_block_size := block_size;
     file_autocommit := autocommit;
     file_cache_options := cache_options;
     file_cache_type := cache_type;
     file_kwargs := kwargs |}.

(** ** Touch *)

Section Touch.

(** The two operations [touch] calls that live outside base.py: the
    framework's [exists] and the framework's [open] used as a context
    manager with an empty body, which opens the object for writing and
    closes it at once.  Both run on the instance and may raise. *)
Variable fs_exists : string -> M bool.
Variable open_wb_close : string -> gmap string pyval -> M unit.

(** [touch] (base.py, lines 247-252).  Python's [or] does not evaluate
    [self.exists(path)] when [truncate] is true. *)
Definition touch (path : string) (truncate : bool) (kwargs : gmap string pyval) :
    M unit :=
  let* proceed :=
    (if truncate then ret true
     else let* e := fs_exists path in ret (negb e)) in
  if proceed : bool then
    run invalidate_cache (Some (_parent path)) in
    open_wb_close path kwargs
  else raise NotImplementedError.

End Touch.

(** The bucket and key of a path, and the key under which the listing cache
    files a path. *)
Definition bucket_key (path : string) : string * string :=
  match split_path path with
  | inr bk => bk
  | inl _ => ("", "")
  end.

Definition cache_key (path : string) : string :=
  PyStr.lstrip "/" (_strip_protocol path).

(** An instance of the two outside operations of [touch]: a store whose
    objects are the paths in [objects], and whose writes leave the instance
    untouched. *)
Definition store_exists (objects : gset string) (path : string) : M bool :=
  ret (bool_decide (path ∈ objects)).

Definition store_open_wb_close (path : string) (kwargs : gmap string pyval) : M unit :=
  ret tt.

(** The cache after [invalidate_cache(path)], and after the invalidation
    loop of the batch planner over [pathlist]. *)
Definition invalidated (path : string) (dc : gmap string (list info)) :
    gmap string (list info) :=
  invalidate_loop (cache_key path) (delete (cache_key path) dc).

Definition invalidated_all (pathlist : list string) (dc : gmap string (list info)) :
    gmap string (list info) :=
  foldl (fun dc path => invalidated (_parent path) dc) dc pathlist.

(** The set of buckets and the key list that the first loop of the batch
    planner builds. *)
Definition buckets_of (pathlist : list string) : gset string :=
  list_to_set (List.map (fun path => fst (bucket_key path)) pathlist).

Definition keys_of (pathlist : list string) : list string :=
  List.map (fun path => snd (bucket_key path)) pathlist.

(** * Properties *)

(** ** Path codec *)

Section Codec.

Lemma startswith_app (pre s : string) :
  PyStr.startswith pre s = true ->
  s = pre ++ PyStr.slice_from (String.length pre) s.
Proof.
  revert s; induction pre as [|a pre IH]; intros [|b s];
    cbn [PyStr.startswith]; try discriminate; try reflexivity.
  destruct (Ascii.eqb_spec a b) as [->|]; [|discriminate].
  intros H.
  change (String b s = String b (pre ++ PyStr.slice_from (String.length pre) s)).
  f_equal. apply IH, H.
Qed.

Lemma startswith_cos_inv (p : string) :
  PyStr.startswith "cos://" p = true ->
  exists rest, PyStr.slice_from 5 p = String "/" rest.
Proof.
  intros H. apply startswith_app in H. rewrite H.
  exists (PyStr.slice_from 6 p). reflexivity.
Qed.

Lemma strip_protocol_plain (p : string) :
  PyStr.startswith "cos://" p = false -> _strip_protocol p = p.
Proof.
  unfold _strip_protocol, stringify_path, root_marker. intros ->.
  destruct p; reflexivity.
Qed.

Lemma strip_protocol_idem (p : string) :
  _strip_protocol (_strip_protocol p) = _strip_protocol p.
Proof.
  destruct (PyStr.startswith "cos://" p) eqn:E.
  - apply strip_protocol_plain.
    unfold _strip_protocol, stringify_path. rewrite E.
    destruct (startswith_cos_inv p E) as [rest ->]. reflexivity.
  - rewrite !(strip_protocol_plain p E). reflexivity.
Qed.

Lemma strip_protocol_arg_idem :
  forall p, _strip_protocol_arg (_strip_protocol_arg p) = _strip_protocol_arg p.
Proof.
  fix IH 1. intros [s|l]; simpl.
  - f_equal. apply strip_protocol_idem.
  - f_equal. rewrite List.map_map.
    induction l as [|x l IHl]; simpl; [reflexivity|].
    f_equal; [apply IH | apply IHl].
Qed.

Lemma unpack2_split1 (sep s : string) :
  PyStr.contains sep s = true ->
  exists a b, PyStr.split1 sep s = [a; b].
Proof.
  unfold PyStr.contains, PyStr.split1.
  destruct (PyStr.find sep s); [eauto|discriminate].
Qed.

Lemma split_path_total (path : string) :
  split_path path = inr (bucket_key path).
Proof.
  unfold bucket_key, split_path.
  destruct (PyStr.contains "/" (PyStr.lstrip "/" (_strip_protocol path))) eqn:E;
    simpl; [|reflexivity].
  destruct (unpack2_split1 _ _ E) as (a & b & ->). reflexivity.
Qed.

Lemma split_path_strip (path : string) :
  split_path (_strip_protocol path) = split_path path.
Proof. unfold split_path. rewrite strip_protocol_idem. reflexivity. Qed.

Lemma bucket_key_strip (path : string) :
  bucket_key (_strip_protocol path) = bucket_key path.
Proof. unfold bucket_key. rewrite split_path_strip. reflexivity. Qed.

Lemma lstrip_head (chars s : string) (c : ascii) (rest : string) :
  PyStr.lstrip chars s = String c rest -> PyStr.in_chars c chars = false.
Proof.
  induction s as [|d s IH]; simpl; [discriminate|].
  destruct (PyStr.in_chars d chars) eqn:E; [exact IH|].
  intros [= <- _]. exact E.
Qed.

(** A path has no bucket exactly when nothing but slashes is left of it
    once the protocol is stripped. *)
Lemma no_bucket_iff (path : string) :
  fst (bucket_key path) = "" <-> cache_key path = "".
Proof.
  unfold bucket_key, split_path. fold (cache_key path).
  destruct (cache_key path) as [|c rest] eqn:Eq; [simpl; tauto|].
  apply lstrip_head in Eq.
  assert (PyStr.startswith "/" (String c rest) = false) as Hs.
  { cbn [PyStr.startswith]. cbn [PyStr.in_chars] in Eq.
    rewrite Ascii.eqb_sym. destruct (Ascii.eqb c "/"); [discriminate|reflexivity]. }
  unfold PyStr.contains, PyStr.split1. cbn [PyStr.find]. rewrite Hs.
  destruct (PyStr.find "/" rest) as [i|]; simpl; split; discriminate.
Qed.

End Codec.

(** C7: [_strip_protocol] is idempotent: stripping an already stripped path
    string gives the same string, because a stripped path never starts with
    the protocol; the same holds element-wise for a list of paths. *)
Theorem strip_protocol_idempotent (p : string) :
  _strip_protocol (_strip_protocol p) = _strip_protocol p /\
  PyStr.startswith "cos://" (_strip_protocol p) = false /\
  (forall l : path_arg,
     _strip_protocol_arg (_strip_protocol_arg l) = _strip_protocol_arg l).
Proof.
  split; [apply strip_protocol_idem|split; [|apply strip_protocol_arg_idem]].
  destruct (PyStr.startswith "cos://" p) eqn:E.
  - unfold _strip_protocol, stringify_path. rewrite E.
    destruct (startswith_cos_inv p E) as [rest ->]. reflexivity.
  - rewrite (strip_protocol_plain p E). exact E.
Qed.

(** C8: [_strip_protocol] and [split_path] are functions of their string
    argument alone and return on every string.  [_strip_protocol] returns the
    path, without the first five characters when it starts with [cos://].
    [split_path], whose two-name unpacking of [split] could raise, returns a
    bucket and a key for every input; when nothing follows the bucket (no
    slash remains after the leading slashes are trimmed) the whole remainder
    is the bucket and the key is empty. *)
Theorem split_path_never_raises (path : string) :
  _strip_protocol path
  = (if PyStr.startswith "cos://" path then PyStr.slice_from 5 path else path) /\
  (exists bucket key, split_path path = inr (bucket, key)) /\
  (PyStr.contains "/" (cache_key path) = false ->
   split_path path = inr (cache_key path, "")).
Proof.
  split; [|split].
  - destruct (PyStr.startswith "cos://" path) eqn:E.
    + unfold _strip_protocol, stringify_path. rewrite E.
      destruct (startswith_cos_inv path E) as [rest ->]. reflexivity.
    + apply strip_protocol_plain, E.
  - rewrite split_path_total. destruct (bucket_key path); eauto.
  - unfold split_path, cache_key. intros ->. reflexivity.
Qed.

Lemma split_path_never_raises_witness :
  PyStr.contains "/" (cache_key "cos://bucket") = false /\
  split_path "cos://bucket" = inr ("bucket", "").
Proof.
  split; [reflexivity|].
  apply (proj2 (proj2 (split_path_never_raises "cos://bucket"))). reflexivity.
Defined.

(** C1: [split_path] on the three example paths.  The first two come out as
    bucket and key; on the third the version qualifier is not taken apart: it
    stays in the key. *)
Theorem split_path_examples :
  split_path "/bucket/a/b/c" = inr ("bucket", "a/b/c") /\
  split_path "/bucket" = inr ("bucket", "") /\
  split_path "/bucket/key?versionId=v1" = inr ("bucket", "key?versionId=v1").
Proof. repeat split; reflexivity. Qed.

(** ** Find-argument validation *)

(** C5, as stated, fails: a prefix given together with a [maxdepth] of 0 is
    not rejected.  Python takes 0 for false, so the test
    [(withdirs or maxdepth) and prefix] does not fire and the stripped path
    comes back. *)
Lemma verify_find_arguments_prefix_with_maxdepth_zero :
  _verify_find_arguments "bucket/dir" (Some 0%Z) false "x" = inr "bucket/dir" /\
  ~ (exists msg, _verify_find_arguments "bucket/dir" (Some 0%Z) false "x"
                 = inl (ValueError msg)).
Proof.
  split; [reflexivity|].
  intros [msg H]. vm_compute in H. discriminate H.
Qed.

(** C5 (amended): [_verify_find_arguments] raises [ValueError] when the path
    has no bucket, raises [ValueError] when a non-empty prefix is given
    together with [withdirs] or a [maxdepth] other than 0 (as for prefix [x]
    with [maxdepth] 2), and with a bucket, no [withdirs] and a [maxdepth] that
    is absent or 0 it returns the stripped path, whatever the prefix. *)
Theorem verify_find_arguments_spec (path : string) (maxdepth : option Z)
    (withdirs : bool) (prefix : string) :
  (fst (bucket_key path) = "" ->
   exists msg, _verify_find_arguments path maxdepth withdirs prefix
               = inl (ValueError msg)) /\
  (prefix <> "" -> withdirs = true \/ truthy_int maxdepth = true ->
   exists msg, _verify_find_arguments path maxdepth withdirs prefix
               = inl (ValueError msg)) /\
  (exists msg, _verify_find_arguments path (Some 2%Z) withdirs "x"
               = inl (ValueError msg)) /\
  (fst (bucket_key path) <> "" -> withdirs = false -> truthy_int maxdepth = false ->
   _verify_find_arguments path maxdepth withdirs prefix
   = inr (_strip_protocol path)).
Proof.
  unfold _verify_find_arguments.
  rewrite split_path_strip, split_path_total.
  destruct (bucket_key path) as [bucket key]; simpl.
  repeat split.
  - intros ->. simpl. eauto.
  - intros Hp Hw. destruct bucket; simpl; [eauto|].
    assert (withdirs || truthy_int maxdepth = true) as ->
      by (destruct Hw as [-> | ->]; [reflexivity | apply orb_true_r]).
    destruct prefix; [congruence|]. simpl. eauto.
  - destruct bucket; simpl; [eauto|]. rewrite orb_true_r. simpl. eauto.
  - intros Hb -> ->. destruct bucket; [congruence|]. reflexivity.
Qed.

Lemma verify_find_arguments_spec_witness :
  (exists msg, _verify_find_arguments "cos://" None false "" = inl (ValueError msg)) /\
  (exists msg, _verify_find_arguments "bucket/dir" (Some 2%Z) false "x"
               = inl (ValueError msg)) /\
  _verify_find_arguments "cos://bucket/dir" None false "x" = inr "/bucket/dir".
Proof.
  split; [|split].
  - apply (proj1 (verify_find_arguments_spec "cos://" None false "")). reflexivity.
  - apply (proj1 (proj2 (verify_find_arguments_spec "bucket/dir" (Some 2%Z) false "x"))).
    + discriminate.
    + right. reflexivity.
  - apply (proj2 (proj2 (proj2
      (verify_find_arguments_spec "cos://bucket/dir" None false "x"))));
      [discriminate | reflexivity | reflexivity].
Defined.

(** ** Listing cache *)

Section Cache.

Implicit Types dc : gmap string (list info).

Lemma set_dircache_id (s : fs) : set_dircache (dircache s) s = s.
Proof. destruct s; reflexivity. Qed.

Lemma set_dircache_twice dc dc' (s : fs) :
  set_dircache dc (set_dircache dc' s) = set_dircache dc s.
Proof. reflexivity. Qed.

Lemma invalidate_cache_Some (path : string) (s : fs) :
  invalidate_cache (Some path) s
  = (inr tt, set_dircache (invalidated path (dircache s)) s).
Proof. reflexivity. Qed.

Lemma invalidate_loop_subseteq (p : string) dc : invalidate_loop p dc ⊆ dc.
Proof.
  funelim (invalidate_loop p dc).
  - reflexivity.
  - etransitivity; [eassumption|]. apply delete_subseteq.
Qed.

Lemma invalidated_subseteq (path : string) dc : invalidated path dc ⊆ dc.
Proof.
  unfold invalidated. etransitivity; [apply invalidate_loop_subseteq|].
  apply delete_subseteq.
Qed.

Lemma invalidated_lookup (path : string) dc :
  invalidated path dc !! cache_key path = None.
Proof.
  unfold invalidated.
  eapply lookup_weaken_None; [|apply invalidate_loop_subseteq].
  apply lookup_delete_eq.
Qed.

Lemma invalidated_all_subseteq (pathlist : list string) dc :
  invalidated_all pathlist dc ⊆ dc.
Proof.
  revert dc; induction pathlist as [|p pl IH]; intros dc; simpl; [reflexivity|].
  etransitivity; [apply IH|]. apply invalidated_subseteq.
Qed.

Lemma invalidated_all_lookup (pathlist : list string) dc (p : string) :
  p ∈ pathlist -> invalidated_all pathlist dc !! cache_key (_parent p) = None.
Proof.
  revert dc; induction pathlist as [|q pl IH]; intros dc Hin.
  - inversion Hin.
  - apply elem_of_cons in Hin as [->|Hin]; simpl.
    + eapply lookup_weaken_None; [|apply invalidated_all_subseteq].
      apply invalidated_lookup.
    + apply IH, Hin.
Qed.

Lemma for_each_invalidate (pathlist : list string) (s : fs) :
  for_each pathlist tt (fun _ path => invalidate_cache (Some (_parent path))) s
  = (inr tt, set_dircache (invalidated_all pathlist (dircache s)) s).
Proof.
  revert s; induction pathlist as [|p pl IH]; intros s; simpl.
  - unfold ret. rewrite set_dircache_id. reflexivity.
  - unfold bind. rewrite invalidate_cache_Some, IH. reflexivity.
Qed.

Lemma invalidate_chain_example dc :
  invalidated "bucket/a/b/c" dc
  = delete "bucket" (delete "bucket/a" (delete "bucket/a/b"
      (delete "bucket/a/b/c" (delete "bucket/a/b/c" dc)))).
Proof.
  unfold invalidated.
  change (cache_key "bucket/a/b/c") with "bucket/a/b/c".
  rewrite invalidate_loop_equation_2.
  change (_parent "bucket/a/b/c") with "bucket/a/b".
  rewrite invalidate_loop_equation_2.
  change (_parent "bucket/a/b") with "bucket/a".
  rewrite invalidate_loop_equation_2.
  change (_parent "bucket/a") with "bucket".
  rewrite invalidate_loop_equation_2.
  change (_parent "bucket") with "".
  rewrite invalidate_loop_equation_1. reflexivity.
Qed.

End Cache.

(** C2, as stated, fails: invalidating [bucket/a/b/c] in a cache that holds a
    listing under the root marker leaves that listing in place. *)
Lemma invalidate_keeps_root_listing :
  let s := mk_fs None DEFAULT_BLOCK_SIZE "readahead"
             {[ root_marker := [mk_info "bucket" directory 0] ]} in
  dircache (snd (invalidate_cache (Some "bucket/a/b/c") s)) !! root_marker <> None.
Proof. vm_compute. discriminate. Qed.

(** C2 (amended): in every cache state, invalidating [bucket/a/b/c] removes
    the entries for [bucket/a/b/c], [bucket/a/b], [bucket/a] and [bucket], and
    every other entry is as it was before; the call returns normally and
    changes nothing else on the instance. *)
Theorem invalidate_cache_ancestors (s : fs) :
  exists s',
    invalidate_cache (Some "bucket/a/b/c") s = (inr tt, s') /\
    dircache s' !! "bucket/a/b/c" = None /\
    dircache s' !! "bucket/a/b" = None /\
    dircache s' !! "bucket/a" = None /\
    dircache s' !! "bucket" = None /\
    (forall k : string,
       k ∉ ["bucket/a/b/c"; "bucket/a/b"; "bucket/a"; "bucket"] ->
       dircache s' !! k = dircache s !! k) /\
    s' = set_dircache (dircache s') s.
Proof.
  eexists. split; [apply invalidate_cache_Some|].
  cbn [dircache set_dircache]. rewrite invalidate_chain_example.
  repeat split.
  - rewrite !lookup_delete_ne by discriminate. apply lookup_delete_eq.
  - rewrite !lookup_delete_ne by discriminate. apply lookup_delete_eq.
  - rewrite lookup_delete_ne by discriminate. apply lookup_delete_eq.
  - apply lookup_delete_eq.
  - intros k Hk. rewrite !lookup_delete_ne; [reflexivity|..];
      intros <-; apply Hk; set_solver.
Qed.

(** ** Batch planner *)

Section BatchPlanner.

Implicit Types pathlist : list string.

(** The first loop only fills its two local variables. *)
Lemma for_each_split pathlist (buckets : gset string) (key_list : list string) (s : fs) :
  for_each pathlist (buckets, key_list)
    (fun '(buckets, key_list) path =>
       let* '(bucket, key) := lift (split_path path) in
       ret ({[bucket]} ∪ buckets, (key_list ++ [key])%list)) s
  = (inr (buckets_of pathlist ∪ buckets, (key_list ++ keys_of pathlist)%list), s).
Proof.
  revert buckets key_list; induction pathlist as [|p pl IH];
    intros buckets key_list; simpl.
  - unfold ret, buckets_of, keys_of. simpl.
    rewrite app_nil_r, (left_id_L ∅ (∪)). reflexivity.
  - unfold bind at 1. unfold bind at 1. unfold lift.
    rewrite split_path_total. destruct (bucket_key p) as [b k] eqn:E.
    unfold ret at 1. rewrite IH. unfold buckets_of, keys_of. simpl.
    rewrite E. simpl. rewrite <- app_assoc. simpl.
    do 3 f_equal.
    rewrite (assoc_L (∪)), (comm_L (∪) _ {[b]}). reflexivity.
Qed.

(** The planner, with its loops replaced by what they compute. *)
Lemma get_batch_delete_key_list_unfold pathlist (s : fs) :
  _get_batch_delete_key_list pathlist s =
  if decide (1 < size (buckets_of pathlist)) then
    (inl (ValueError "Bulk delete files should refer to only one bucket"), s)
  else
    match elements (buckets_of pathlist) with
    | [] => (inl (KeyError "pop from an empty set"), s)
    | bucket :: _ =>
        if decide (1000 < length pathlist) then
          (inl (ValueError "Max number of files to delete in one call is 1000"), s)
        else
          (inr (bucket, keys_of pathlist),
           set_dircache (invalidated_all pathlist (dircache s)) s)
    end.
Proof.
  unfold _get_batch_delete_key_list. unfold bind at 1.
  rewrite for_each_split. rewrite (right_id_L ∅ (∪)). simpl.
  destruct (decide (1 < size (buckets_of pathlist))); [reflexivity|].
  unfold bind at 1. unfold set_pop.
  destruct (elements (buckets_of pathlist)) as [|b l]; [reflexivity|].
  unfold ret at 1.
  destruct (decide (1000 < length pathlist)); [reflexivity|].
  unfold bind. rewrite for_each_invalidate. reflexivity.
Qed.

Lemma elem_of_buckets_of pathlist (p : string) :
  p ∈ pathlist -> fst (bucket_key p) ∈ buckets_of pathlist.
Proof.
  intros Hin. unfold buckets_of. apply elem_of_list_to_set.
  apply list_elem_of_In.
  apply (List.in_map (fun path => fst (bucket_key path))), list_elem_of_In, Hin.
Qed.

Lemma buckets_of_two pathlist (p q : string) :
  p ∈ pathlist -> q ∈ pathlist ->
  fst (bucket_key p) <> fst (bucket_key q) ->
  1 < size (buckets_of pathlist).
Proof.
  intros Hp Hq Hne.
  apply elem_of_buckets_of in Hp, Hq.
  assert (size ({[fst (bucket_key p)]} ∪ {[fst (bucket_key q)]} : gset string) = 2) as H2.
  { rewrite size_union by set_solver. rewrite !size_singleton. reflexivity. }
  assert (({[fst (bucket_key p)]} ∪ {[fst (bucket_key q)]} : gset string)
          ⊆ buckets_of pathlist) as Hsub
    by (apply union_subseteq; split; apply singleton_subseteq_l; assumption).
  apply subseteq_size in Hsub. lia.
Qed.

Lemma buckets_of_many pathlist :
  1000 < length pathlist -> buckets_of pathlist <> ∅.
Proof.
  destruct pathlist as [|p pl]; simpl; [lia|]. intros _.
  unfold buckets_of. simpl. set_solver.
Qed.

Lemma buckets_of_one pathlist (b : string) :
  pathlist <> [] ->
  (forall p, p ∈ pathlist -> fst (bucket_key p) = b) ->
  buckets_of pathlist = {[ b ]}.
Proof.
  intros Hne Hall. apply set_eq. intros x. rewrite elem_of_singleton.
  unfold buckets_of. rewrite elem_of_list_to_set, list_elem_of_In, List.in_map_iff.
  split.
  - intros (p & <- & Hp). apply Hall, list_elem_of_In, Hp.
  - intros ->. destruct pathlist as [|p pl]; [congruence|].
    exists p. split; [apply Hall|]; [left | left; reflexivity].
Qed.

End BatchPlanner.

(** C10: on the empty path list the planner returns nothing and raises no
    [ValueError]: taking an element of the empty bucket set raises [KeyError],
    and the instance, its listing cache included, is as before. *)
Theorem batch_delete_empty_list_raises_KeyError (s : fs) :
  _get_batch_delete_key_list [] s = (inl (KeyError "pop from an empty set"), s).
Proof.
  rewrite get_batch_delete_key_list_unfold.
  change (buckets_of []) with (∅ : gset string).
  rewrite size_empty, elements_empty. reflexivity.
Qed.

(** C3: the planner raises [ValueError] when two paths of the list have
    different buckets, and when the list has more than 1000 paths.  For a
    non-empty list of at most 1000 paths that all have bucket [b] it returns
    [b] with the key of every path, in the order of the list and with
    repetitions kept; afterwards the listing cache holds no entry for the
    parent directory of any path of the list, it gained no entry, and
    nothing else on the instance changed. *)
Theorem get_batch_delete_key_list_spec (pathlist : list string) (s : fs) :
  ((exists p q, p ∈ pathlist /\ q ∈ pathlist /\
                fst (bucket_key p) <> fst (bucket_key q)) ->
   exists msg, _get_batch_delete_key_list pathlist s = (inl (ValueError msg), s)) /\
  (1000 < length pathlist ->
   exists msg, _get_batch_delete_key_list pathlist s = (inl (ValueError msg), s)) /\
  (forall b : string,
     pathlist <> [] -> length pathlist <= 1000 ->
     (forall p, p ∈ pathlist -> fst (bucket_key p) = b) ->
     exists s',
       _get_batch_delete_key_list pathlist s
       = (inr (b, List.map (fun p => snd (bucket_key p)) pathlist), s') /\
       (forall p, p ∈ pathlist -> dircache s' !! cache_key (_parent p) = None) /\
       dircache s' ⊆ dircache s /\
       s' = set_dircache (dircache s') s).
Proof.
  rewrite get_batch_delete_key_list_unfold. split; [|split].
  - intros (p & q & Hp & Hq & Hne).
    pose proof (buckets_of_two pathlist p q Hp Hq Hne) as Hsize.
    destruct (decide (1 < size (buckets_of pathlist))); [eauto|contradiction].
  - intros Hlen.
    destruct (decide (1 < size (buckets_of pathlist))); [eauto|].
    destruct (elements (buckets_of pathlist)) as [|b l] eqn:E.
    + apply elements_empty_inv, leibniz_equiv in E.
      exfalso. eapply buckets_of_many; eassumption.
    + destruct (decide (1000 < length pathlist)); [eauto|contradiction].
  - intros b Hne Hlen Hall.
    rewrite (buckets_of_one pathlist b Hne Hall).
    rewrite size_singleton, elements_singleton.
    rewrite decide_False by lia. rewrite decide_False by lia.
    eexists. split; [reflexivity|]. cbn [dircache set_dircache].
    split; [|split].
    + intros p Hp. apply invalidated_all_lookup, Hp.
    + apply invalidated_all_subseteq.
    + reflexivity.
Qed.

Lemma get_batch_delete_key_list_spec_witness :
  let s := mk_fs None DEFAULT_BLOCK_SIZE "readahead"
             {[ "b/d" := [mk_info "b/d/x" file 3] ]} in
  (exists msg, _get_batch_delete_key_list ["/a/x"; "/b/y"] s = (inl (ValueError msg), s)) /\
  (exists msg, _get_batch_delete_key_list (repeat "/b/x" 1001) s
               = (inl (ValueError msg), s)) /\
  (exists s', _get_batch_delete_key_list ["/b/d/x"; "cos://b/y"; "/b/d/x"] s
              = (inr ("b", ["d/x"; "y"; "d/x"]), s') /\
              dircache s' !! "b/d" = None).
Proof.
  intros s. split; [|split].
  - apply (proj1 (get_batch_delete_key_list_spec ["/a/x"; "/b/y"] s)).
    exists "/a/x", "/b/y". repeat split; [set_solver | set_solver | discriminate].
  - apply (proj1 (proj2 (get_batch_delete_key_list_spec (repeat "/b/x" 1001) s))).
    rewrite repeat_length. lia.
  - destruct (proj2 (proj2 (get_batch_delete_key_list_spec
                ["/b/d/x"; "cos://b/y"; "/b/d/x"] s)) "b") as (s' & Hrun & Hgone & _).
    + discriminate.
    + simpl. lia.
    + intros p Hp. repeat (apply elem_of_cons in Hp as [->|Hp]; [reflexivity|]).
      inversion Hp.
    + exists s'. split; [exact Hrun|].
      apply (Hgone "/b/d/x"). set_solver.
Defined.

(** C6: a [ValueError] leaves no partial state.  When the planner raises
    [ValueError] the instance, and so its listing cache, is exactly as it was
    before the call; when [set_endpoint] is given a falsy endpoint it raises
    [ValueError] and the instance, and so the stored endpoint, is as before. *)
Theorem validation_errors_keep_state :
  (forall (pathlist : list string) (s s' : fs) (msg : string),
     _get_batch_delete_key_list pathlist s = (inl (ValueError msg), s') ->
     s' = s /\ dircache s' = dircache s) /\
  (forall (endpoint : option string) (s : fs),
     truthy_str endpoint = false ->
     exists msg, set_endpoint endpoint s = (inl (ValueError msg), s) /\
                 _endpoint (snd (set_endpoint endpoint s)) = _endpoint s).
Proof.
  split.
  - intros pathlist s s' msg. rewrite get_batch_delete_key_list_unfold.
    destruct (decide (1 < size (buckets_of pathlist))).
    { intros [= _ <-]. split; reflexivity. }
    destruct (elements (buckets_of pathlist)); [discriminate|].
    destruct (decide (1000 < length pathlist)); [|discriminate].
    intros [= _ <-]. split; reflexivity.
  - intros endpoint s Hf. unfold set_endpoint. rewrite Hf. simpl.
    eexists. split; reflexivity.
Qed.

Lemma validation_errors_keep_state_witness :
  let s := mk_fs (Some "http://cos.example") DEFAULT_BLOCK_SIZE "readahead"
             {[ "a" := [mk_info "a/x" file 1] ]} in
  (forall s' msg,
     _get_batch_delete_key_list ["/a/x"; "/b/y"] s = (inl (ValueError msg), s') ->
     dircache s' = dircache s) /\
  _get_batch_delete_key_list ["/a/x"; "/b/y"] s
  = (inl (ValueError "Bulk delete files should refer to only one bucket"), s) /\
  _endpoint (snd (set_endpoint (Some "") s)) = Some "http://cos.example".
Proof.
  intros s. split; [|split].
  - intros s' msg H.
    apply (proj1 validation_errors_keep_state ["/a/x"; "/b/y"] s s' msg H).
  - vm_compute. reflexivity.
  - destruct (proj2 validation_errors_keep_state (Some "") s eq_refl) as (msg & _ & H).
    exact H.
Defined.

(** ** Opening files *)

Section Open.

Lemma init_builtin_block_size getenv endpoint key secret token cache_type :
  _default_block_size
    (__init__ getenv endpoint key secret token cache_type None) = 5242880%Z.
Proof. reflexivity. Qed.

Lemma open_cache_type_default (self : fs) (path mode : string)
    (block_size : option Z) (autocommit : bool) (cache_options : option string)
    (kwargs : gmap string pyval) :
  kwargs !! "cache_type" = None ->
  file_cache_type (_open self path mode block_size autocommit cache_options kwargs)
  = VStr (_default_cache_type self).
Proof. intros H. unfold _open, kwargs_pop. rewrite H. reflexivity. Qed.

Lemma open_block_size_forwarded (self : fs) (path mode : string)
    (block_size : option Z) (autocommit : bool) (cache_options : option string)
    (kwargs : gmap string pyval) :
  file_block_size (_open self path mode block_size autocommit cache_options kwargs)
  = block_size.
Proof. unfold _open. destruct (kwargs_pop _ _ _). reflexivity. Qed.

End Open.

(** C9: [_open] called without a block size hands the file constructor no
    block size at all, whatever the filesystem is configured with; only the
    cache type is taken from the configuration.  On a filesystem configured
    with a default block size of 10 MiB and default cache type [none], the
    handle gets cache type [none] and not the configured 10 MiB. *)
Theorem open_does_not_resolve_block_size :
  (forall (self : fs) (path mode : string) (autocommit : bool)
          (cache_options : option string) (kwargs : gmap string pyval),
     file_block_size (_open self path mode None autocommit cache_options kwargs)
     = None) /\
  let self := __init__ (fun _ => None) (Some "http://cos.example") None None None
                "none" (Some (10 * 2 ^ 20)%Z) in
  let handle := _open self "bucket/key" "rb" None true None ∅ in
  _default_block_size self = 10485760%Z /\
  file_cache_type handle = VStr "none" /\
  file_block_size handle <> Some (_default_block_size self).
Proof.
  split; [intros; apply open_block_size_forwarded|].
  cbv zeta. split; [reflexivity|split; [reflexivity|]].
  rewrite open_block_size_forwarded. discriminate.
Qed.

(** ** Touch *)

(** C4: with [truncate] true, and with [truncate] false on a path that
    [exists] reports missing, [touch] invalidates the parent directory, after
    which the cache holds no listing for it, and then does the empty write
    (open for writing and close), whose outcome is the outcome of [touch];
    with [truncate] false on a path that [exists] reports present, [touch]
    raises [NotImplementedError]. *)
Theorem touch_spec (fs_exists : string -> M bool)
    (open_wb_close : string -> gmap string pyval -> M unit)
    (path : string) (kwargs : gmap string pyval) (s : fs) :
  (exists s1,
     invalidate_cache (Some (_parent path)) s = (inr tt, s1) /\
     dircache s1 !! cache_key (_parent path) = None /\
     touch fs_exists open_wb_close path true kwargs s = open_wb_close path kwargs s1) /\
  (forall s0, fs_exists path s = (inr false, s0) ->
     exists s1,
       invalidate_cache (Some (_parent path)) s0 = (inr tt, s1) /\
       dircache s1 !! cache_key (_parent path) = None /\
       touch fs_exists open_wb_close path false kwargs s = open_wb_close path kwargs s1) /\
  (forall s0, fs_exists path s = (inr true, s0) ->
     touch fs_exists open_wb_close path false kwargs s = (inl NotImplementedError, s0)).
Proof.
  split; [|split].
  - eexists. split; [apply invalidate_cache_Some|]. split.
    + apply invalidated_lookup.
    + reflexivity.
  - intros s0 He. eexists. split; [apply invalidate_cache_Some|]. split.
    + apply invalidated_lookup.
    + unfold touch, bind. rewrite He. reflexivity.
  - intros s0 He. unfold touch, bind. rewrite He. reflexivity.
Qed.

Lemma touch_spec_witness :
  let objects : gset string := {[ "bucket/dir/old" ]} in
  let s := mk_fs (Some "http://cos.example") DEFAULT_BLOCK_SIZE "readahead"
             {[ "bucket/dir" := [mk_info "bucket/dir/old" file 7] ]} in
  (exists s1,
     touch (store_exists objects) store_open_wb_close "bucket/dir/new" false ∅ s
     = (inr tt, s1) /\ dircache s1 !! "bucket/dir" = None) /\
  touch (store_exists objects) store_open_wb_close "bucket/dir/old" false ∅ s
  = (inl NotImplementedError, s).
Proof.
  intros objects s. split.
  - destruct (proj1 (proj2 (touch_spec (store_exists objects) store_open_wb_close
                 "bucket/dir/new" ∅ s)) s eq_refl) as (s1 & _ & Hgone & Hrun).
    exists s1. split; [exact Hrun | exact Hgone].
  - apply (proj2 (proj2 (touch_spec (store_exists objects) store_open_wb_close
                 "bucket/dir/old" ∅ s))).
    reflexivity.
Defined.

(** * Further properties of the code *)

(** ** [split_path]: what the bucket and the key are *)

Section SplitPath.

Lemma startswith_char (a c : ascii) (s : string) :
  PyStr.startswith (String a "") (String c s) = Ascii.eqb a c.
Proof. cbn [PyStr.startswith]. destruct (Ascii.eqb a c); reflexivity. Qed.

Lemma find_char_slice_to (a : ascii) (s : string) (i : nat) :
  PyStr.find (String a "") s = Some i ->
  PyStr.find (String a "") (PyStr.slice_to i s) = None.
Proof.
  revert i; induction s as [|c s IH]; intros i.
  - cbn. discriminate.
  - cbn [PyStr.find]. rewrite startswith_char.
    destruct (Ascii.eqb a c) eqn:E.
    + intros [= <-]. reflexivity.
    + destruct (PyStr.find (String a "") s) as [j|] eqn:F; [|discriminate].
      intros [= <-]. cbn [PyStr.slice_to PyStr.find].
      rewrite startswith_char, E, (IH j eq_refl). reflexivity.
Qed.

Lemma find_char_join (a : ascii) (s : string) (i : nat) :
  PyStr.find (String a "") s = Some i ->
  s = PyStr.slice_to i s ++ String a (PyStr.slice_from (i + 1) s).
Proof.
  revert i; induction s as [|c s IH]; intros i.
  - cbn. discriminate.
  - cbn [PyStr.find]. rewrite startswith_char.
    destruct (Ascii.eqb_spec a c) as [->|_].
    + intros [= <-]. reflexivity.
    + destruct (PyStr.find (String a "") s) as [j|] eqn:F; [|discriminate].
      intros [= <-].
      change (String c s
              = String c (PyStr.slice_to j s ++ String a (PyStr.slice_from (j + 1) s))).
      f_equal. apply IH. reflexivity.
Qed.

Lemma bucket_key_cache_key (path : string) :
  bucket_key path =
    match PyStr.find "/" (cache_key path) with
    | None => (cache_key path, "")
    | Some i => (PyStr.slice_to i (cache_key path),
                 PyStr.slice_from (i + 1) (cache_key path))
    end.
Proof.
  unfold bucket_key, split_path. fold (cache_key path).
  unfold PyStr.contains, PyStr.split1.
  destruct (PyStr.find "/" (cache_key path)); reflexivity.
Qed.

Lemma split_path_cache_key (p q : string) :
  cache_key p = cache_key q -> split_path p = split_path q.
Proof. unfold split_path. fold (cache_key p) (cache_key q). intros ->. reflexivity. Qed.

Lemma cache_key_protocol (rest : string) :
  PyStr.startswith "cos://" rest = false ->
  cache_key ("cos://" ++ rest) = cache_key rest /\
  cache_key ("/" ++ rest) = cache_key rest.
Proof.
  intros Hplain. unfold cache_key. rewrite (strip_protocol_plain rest Hplain).
  split; reflexivity.
Qed.

End SplitPath.

(** X1: the bucket that [split_path] returns never contains a slash. *)
Theorem split_path_bucket_has_no_slash (path : string) :
  exists bucket key,
    split_path path = inr (bucket, key) /\ PyStr.contains "/" bucket = false.
Proof.
  exists (fst (bucket_key path)), (snd (bucket_key path)).
  split; [rewrite split_path_total; destruct (bucket_key path); reflexivity|].
  rewrite bucket_key_cache_key.
  destruct (PyStr.find "/" (cache_key path)) as [i|] eqn:F; cbn [fst];
    unfold PyStr.contains.
  - rewrite (find_char_slice_to _ _ _ F). reflexivity.
  - rewrite F. reflexivity.
Qed.

(** X2: bucket and key put the path together again: joined by a slash they
    are the path without its protocol and its leading slashes, and when that
    has no slash the bucket alone is. *)
Theorem split_path_join (path : string) :
  exists bucket key,
    split_path path = inr (bucket, key) /\
    cache_key path =
      (if PyStr.contains "/" (cache_key path) then bucket ++ "/" ++ key else bucket).
Proof.
  exists (fst (bucket_key path)), (snd (bucket_key path)).
  split; [rewrite split_path_total; destruct (bucket_key path); reflexivity|].
  rewrite bucket_key_cache_key. unfold PyStr.contains.
  destruct (PyStr.find "/" (cache_key path)) as [i|] eqn:F; cbn [fst snd].
  - apply find_char_join, F.
  - reflexivity.
Qed.

(** X3: [split_path] returns an empty bucket exactly for the paths of which
    nothing but slashes is left once the protocol is stripped, and the key is
    then empty too. *)
Theorem split_path_no_bucket (path : string) :
  (fst (bucket_key path) = "" <-> cache_key path = "") /\
  (fst (bucket_key path) = "" -> split_path path = inr ("", "")).
Proof.
  split; [apply no_bucket_iff|].
  intros Hb. rewrite split_path_total.
  apply no_bucket_iff in Hb. rewrite bucket_key_cache_key, Hb. reflexivity.
Qed.

Lemma split_path_no_bucket_witness :
  cache_key "cos:////" = "" /\ split_path "cos:////" = inr ("", "").
Proof.
  split; [reflexivity|].
  apply (proj2 (split_path_no_bucket "cos:////")).
  apply (proj2 (proj1 (split_path_no_bucket "cos:////"))). reflexivity.
Defined.

(** X4: for a path that does not itself start with the protocol, putting the
    protocol or one more slash in front changes neither bucket nor key. *)
Theorem split_path_ignores_protocol (rest : string) :
  PyStr.startswith "cos://" rest = false ->
  split_path ("cos://" ++ rest) = split_path rest /\
  split_path ("/" ++ rest) = split_path rest.
Proof.
  intros Hplain. destruct (cache_key_protocol rest Hplain) as [H1 H2].
  split; apply split_path_cache_key; assumption.
Qed.

Lemma split_path_ignores_protocol_witness :
  split_path ("cos://" ++ "bucket/a/b") = split_path "bucket/a/b" /\
  split_path ("/" ++ "bucket/a/b") = split_path "bucket/a/b".
Proof. apply (split_path_ignores_protocol "bucket/a/b"). reflexivity. Defined.

(** ** [invalidate_cache]: which entries go and which stay *)

(** The keys that the loop of [invalidate_cache] pops when it starts from
    [norm_path]: the path and its parents, up to the root marker and without
    it. *)
Equations? ancestors (norm_path : string) : list string
    by wf (String.length norm_path) lt :=
  ancestors EmptyString := [];
  ancestors (String c rest) := String c rest :: ancestors (_parent (String c rest)).
Proof. apply length_parent. discriminate. Qed.

(** All the keys a call [invalidate_cache(path)] pops. *)
Definition popped (path : string) : list string :=
  cache_key path :: ancestors (cache_key path).

Section Invalidate.

Implicit Types dc : gmap string (list info).

Lemma invalidate_loop_lookup (p : string) dc (k : string) :
  invalidate_loop p dc !! k = if decide (k ∈ ancestors p) then None else dc !! k.
Proof.
  funelim (invalidate_loop p dc); simp ancestors.
  - rewrite decide_False by apply not_elem_of_nil. reflexivity.
  - match goal with IH : forall k : string, _ = _ |- _ => rewrite IH end.
    destruct (decide (k ∈ ancestors (_parent (String c rest)))) as [Hin|Hnin].
    + rewrite decide_True by (apply elem_of_cons; right; exact Hin). reflexivity.
    + destruct (decide (k = String c rest)) as [->|Hne].
      * rewrite lookup_delete_eq, decide_True by (apply elem_of_cons; left; reflexivity).
        reflexivity.
      * rewrite lookup_delete_ne by congruence.
        rewrite decide_False; [reflexivity|].
        intros [?|?]%elem_of_cons; contradiction.
Qed.

Lemma invalidated_lookup_popped (path : string) dc (k : string) :
  invalidated path dc !! k = if decide (k ∈ popped path) then None else dc !! k.
Proof.
  unfold invalidated, popped. rewrite invalidate_loop_lookup.
  destruct (decide (k ∈ ancestors (cache_key path))) as [Hin|Hnin].
  - rewrite decide_True by (apply elem_of_cons; right; exact Hin). reflexivity.
  - destruct (decide (k = cache_key path)) as [->|Hne].
    + rewrite lookup_delete_eq, decide_True by (apply elem_of_cons; left; reflexivity).
      reflexivity.
    + rewrite lookup_delete_ne by congruence.
      rewrite decide_False; [reflexivity|].
      intros [?|?]%elem_of_cons; contradiction.
Qed.

Lemma ancestors_nonempty (p k : string) : k ∈ ancestors p -> k <> "".
Proof.
  revert k. funelim (ancestors p); simp ancestors; intros k Hk.
  - inversion Hk.
  - apply elem_of_cons in Hk as [->|Hk]; [discriminate|]. eauto.
Qed.

Lemma startswith_refl (s : string) : PyStr.startswith s s = true.
Proof.
  induction s as [|c s IH]; [reflexivity|].
  cbn [PyStr.startswith]. rewrite Ascii.eqb_refl. exact IH.
Qed.

Lemma startswith_trans (a b c : string) :
  PyStr.startswith a b = true -> PyStr.startswith b c = true ->
  PyStr.startswith a c = true.
Proof.
  revert b c; induction a as [|x a IH]; intros [|y b] [|z c];
    cbn [PyStr.startswith]; try discriminate; try reflexivity.
  destruct (Ascii.eqb_spec x y) as [->|]; [|discriminate].
  destruct (Ascii.eqb y z); [|discriminate]. apply IH.
Qed.

Lemma startswith_slice_to (n : nat) (s : string) :
  PyStr.startswith (PyStr.slice_to n s) s = true.
Proof.
  revert s; induction n as [|n IH]; intros [|c s]; try reflexivity.
  cbn [PyStr.slice_to PyStr.startswith]. rewrite Ascii.eqb_refl. apply IH.
Qed.

Lemma lstrip_no_chars (s : string) : PyStr.lstrip "" s = s.
Proof. destruct s; reflexivity. Qed.

Lemma parent_prefix (p : string) :
  PyStr.startswith "cos://" p = false -> PyStr.startswith (_parent p) p = true.
Proof.
  intros Hplain. unfold _parent, root_marker.
  rewrite (strip_protocol_plain p Hplain).
  destruct (PyStr.contains "/" p); [|reflexivity].
  unfold PyStr.rsplit1. destruct (PyStr.rfind "/" p) as [j|]; cbn [hd];
    rewrite lstrip_no_chars; change ("" ++ ?x) with x.
  - apply startswith_slice_to.
  - apply startswith_refl.
Qed.

Lemma ancestors_prefix (p k : string) :
  PyStr.startswith "cos://" p = false -> k ∈ ancestors p ->
  PyStr.startswith k p = true.
Proof.
  revert k. funelim (ancestors p); simp ancestors; intros k Hplain Hk.
  - inversion Hk.
  - apply elem_of_cons in Hk as [->|Hk]; [apply startswith_refl|].
    pose proof (parent_prefix _ Hplain) as Hpar.
    eapply startswith_trans; [|exact Hpar].
    match goal with IH : forall k, _ -> _ -> _ |- _ => apply IH; [|exact Hk] end.
    destruct (PyStr.startswith "cos://" (_parent (String c rest))) eqn:E; [|reflexivity].
    rewrite (startswith_trans _ _ _ E Hpar) in Hplain. discriminate.
Qed.

End Invalidate.

(** X5: [invalidate_cache] with a path always returns, only removes entries
    (every listing still cached was cached before, with the same content),
    removes the entry of the path itself, and changes nothing else on the
    instance; this holds whether or not the path was cached. *)
Theorem invalidate_cache_only_removes (path : string) (s : fs) :
  exists s',
    invalidate_cache (Some path) s = (inr tt, s') /\
    dircache s' ⊆ dircache s /\
    dircache s' !! cache_key path = None /\
    s' = set_dircache (dircache s') s.
Proof.
  eexists. split; [apply invalidate_cache_Some|]. cbn [dircache set_dircache].
  split; [apply invalidated_subseteq|]. split; [apply invalidated_lookup|reflexivity].
Qed.

(** X6: invalidating a path that is not the root never removes the listing
    cached under the root marker. *)
Theorem invalidate_cache_keeps_root (path : string) (s : fs) :
  cache_key path <> "" ->
  dircache (snd (invalidate_cache (Some path) s)) !! root_marker
  = dircache s !! root_marker.
Proof.
  intros Hne. rewrite invalidate_cache_Some. cbn [snd dircache set_dircache].
  rewrite invalidated_lookup_popped. rewrite decide_False; [reflexivity|].
  unfold popped, root_marker. intros [Heq|Hin]%elem_of_cons.
  - apply Hne. symmetry. exact Heq.
  - apply ancestors_nonempty in Hin. apply Hin. reflexivity.
Qed.

Lemma invalidate_cache_keeps_root_witness :
  let s := mk_fs None DEFAULT_BLOCK_SIZE "readahead"
             {[ "" := [mk_info "bucket" directory 0];
                "bucket" := [mk_info "bucket/x" file 1] ]} in
  dircache (snd (invalidate_cache (Some "cos://bucket/x") s)) !! root_marker
  = Some [mk_info "bucket" directory 0].
Proof.
  intros s. rewrite (invalidate_cache_keeps_root "cos://bucket/x" s); [reflexivity|].
  discriminate.
Defined.

(** X7: invalidating the root (a path of which nothing but slashes is left
    once the protocol is stripped) removes the listing under the root marker
    and nothing else. *)
Theorem invalidate_cache_root (path : string) (s : fs) :
  cache_key path = "" ->
  invalidate_cache (Some path) s
  = (inr tt, set_dircache (delete root_marker (dircache s)) s).
Proof.
  intros Hroot. rewrite invalidate_cache_Some. unfold invalidated.
  rewrite Hroot. simp invalidate_loop. reflexivity.
Qed.

Lemma invalidate_cache_root_witness :
  let s := mk_fs None DEFAULT_BLOCK_SIZE "readahead"
             {[ "" := [mk_info "bucket" directory 0];
                "bucket" := [mk_info "bucket/x" file 1] ]} in
  dircache (snd (invalidate_cache (Some "cos://") s))
  = {[ "bucket" := [mk_info "bucket/x" file 1] ]}.
Proof.
  intros s. rewrite (invalidate_cache_root "cos://" s eq_refl).
  vm_compute. reflexivity.
Defined.

(** X8: invalidations compose: two of them give the same instance in either
    order, and repeating one changes nothing more. *)
Theorem invalidate_cache_commutes (p q : string) (s : fs) :
  (run invalidate_cache (Some p) in invalidate_cache (Some q)) s
  = (run invalidate_cache (Some q) in invalidate_cache (Some p)) s /\
  (run invalidate_cache (Some p) in invalidate_cache (Some p)) s
  = invalidate_cache (Some p) s.
Proof.
  unfold bind. rewrite !invalidate_cache_Some.
  cbn [dircache set_dircache]. unfold set_dircache. cbn.
  split; do 2 f_equal; apply map_eq; intros k;
    rewrite !invalidated_lookup_popped; repeat case_decide; reflexivity.
Qed.

(** X9: when the path, without protocol and leading slashes, does not itself
    start with the protocol, invalidating it leaves alone every entry whose
    key is not a prefix of that path. *)
Theorem invalidate_cache_prefixes_only (path k : string) (s : fs) :
  PyStr.startswith "cos://" (cache_key path) = false ->
  PyStr.startswith k (cache_key path) = false ->
  dircache (snd (invalidate_cache (Some path) s)) !! k = dircache s !! k.
Proof.
  intros Hplain Hk. rewrite invalidate_cache_Some. cbn [snd dircache set_dircache].
  rewrite invalidated_lookup_popped. rewrite decide_False; [reflexivity|].
  unfold popped. intros [->|Hin]%elem_of_cons.
  - rewrite startswith_refl in Hk. discriminate.
  - rewrite (ancestors_prefix _ _ Hplain Hin) in Hk. discriminate.
Qed.

Lemma invalidate_cache_prefixes_only_witness :
  let s := mk_fs None DEFAULT_BLOCK_SIZE "readahead"
             {[ "bucket/ab" := [mk_info "bucket/ab/y" file 2];
                "bucket/a" := [mk_info "bucket/a/x" file 1] ]} in
  dircache (snd (invalidate_cache (Some "/bucket/a/x") s)) !! "bucket/ab"
  = Some [mk_info "bucket/ab/y" file 2].
Proof.
  intros s.
  rewrite (invalidate_cache_prefixes_only "/bucket/a/x" "bucket/ab" s);
    reflexivity.
Defined.

(** ** [_verify_find_arguments]: when it accepts *)

(** X10: [_verify_find_arguments] returns a path exactly when the path has a
    bucket and no prefix is given together with [withdirs] or a [maxdepth];
    what it returns is the stripped path; and whatever it raises is a
    [ValueError]. *)
Theorem verify_find_arguments_ok_iff (path : string) (maxdepth : option Z)
    (withdirs : bool) (prefix p : string) :
  (_verify_find_arguments path maxdepth withdirs prefix = inr p <->
   p = _strip_protocol path /\
   fst (bucket_key path) <> "" /\
   (withdirs || truthy_int maxdepth) && PyStr.truthy prefix = false) /\
  (forall e, _verify_find_arguments path maxdepth withdirs prefix = inl e ->
             exists msg, e = ValueError msg).
Proof.
  unfold _verify_find_arguments.
  rewrite split_path_strip, split_path_total.
  destruct (bucket_key path) as [bucket key]; cbn [fst].
  destruct bucket as [|c bucket]; cbn [PyStr.truthy negb].
  - split; [split|].
    + discriminate.
    + intros (_ & Hb & _). congruence.
    + intros e [= <-]. eauto.
  - destruct ((withdirs || truthy_int maxdepth) && PyStr.truthy prefix).
    + split; [split|].
      * discriminate.
      * intros (_ & _ & Hf). discriminate.
      * intros e [= <-]. eauto.
    + split; [split|].
      * intros [= <-]. repeat split. discriminate.
      * intros (-> & _ & _). reflexivity.
      * discriminate.
Qed.

Lemma verify_find_arguments_ok_iff_witness :
  _verify_find_arguments "cos://bucket/dir" (Some 0%Z) false "x" = inr "/bucket/dir".
Proof.
  apply (proj1 (verify_find_arguments_ok_iff "cos://bucket/dir" (Some 0%Z) false "x"
                  "/bucket/dir")).
  repeat split. discriminate.
Defined.

(** X11: a path that [_verify_find_arguments] returned is accepted again,
    unchanged, with the same options. *)
Theorem verify_find_arguments_stable (path : string) (maxdepth : option Z)
    (withdirs : bool) (prefix p : string) :
  _verify_find_arguments path maxdepth withdirs prefix = inr p ->
  _verify_find_arguments p maxdepth withdirs prefix = inr p.
Proof.
  unfold _verify_find_arguments.
  rewrite !split_path_strip, !split_path_total.
  destruct (bucket_key path) as [bucket key] eqn:E.
  destruct (negb (PyStr.truthy bucket)) eqn:Hb; [discriminate|].
  destruct ((withdirs || truthy_int maxdepth) && PyStr.truthy prefix) eqn:Hf;
    [discriminate|].
  intros [= <-]. rewrite bucket_key_strip, E, Hb, strip_protocol_idem.
  reflexivity.
Qed.

Lemma verify_find_arguments_stable_witness :
  _verify_find_arguments "/bucket/dir" None true "" = inr "/bucket/dir".
Proof.
  apply (verify_find_arguments_stable "cos://bucket/dir" None true "" "/bucket/dir").
  reflexivity.
Defined.

(** ** [_get_batch_delete_key_list]: what a result and an error tell *)

Section BatchPlannerMore.

Lemma keys_of_Forall2 (pathlist : list string) (b : string) :
  (forall p, p ∈ pathlist -> fst (bucket_key p) = b) ->
  Forall2 (fun p k => split_path p = inr (b, k)) pathlist (keys_of pathlist).
Proof.
  induction pathlist as [|p pl IH]; intros Hall; [constructor|].
  unfold keys_of. cbn [List.map]. constructor.
  - rewrite split_path_total. rewrite <- (Hall p) by left.
    destruct (bucket_key p); reflexivity.
  - apply IH. intros q Hq. apply Hall. right. exact Hq.
Qed.

Lemma buckets_of_nil_inv (pathlist : list string) :
  buckets_of pathlist = ∅ -> pathlist = [].
Proof.
  destruct pathlist as [|p pl]; [reflexivity|].
  intros H. pose proof (elem_of_buckets_of (p :: pl) p) as Hin.
  rewrite H in Hin.
  exfalso. apply (not_elem_of_empty (C:=gset string) (fst (bucket_key p))).
  apply Hin. left.
Qed.

End BatchPlannerMore.

(** X12: when the planner returns a bucket and keys, the list was not empty and
    had at most 1000 paths, and the keys match the paths one to one, in
    order: [split_path] of the i-th path is the returned bucket with the i-th
    key. *)
Theorem get_batch_delete_key_list_ok_inv (pathlist : list string) (s s' : fs)
    (b : string) (keys : list string) :
  _get_batch_delete_key_list pathlist s = (inr (b, keys), s') ->
  pathlist <> [] /\ length pathlist <= 1000 /\ length keys = length pathlist /\
  Forall2 (fun p k => split_path p = inr (b, k)) pathlist keys.
Proof.
  rewrite get_batch_delete_key_list_unfold.
  destruct (decide (1 < size (buckets_of pathlist))) as [|Hsize]; [discriminate|].
  destruct (elements (buckets_of pathlist)) as [|b' l] eqn:E; [discriminate|].
  destruct (decide (1000 < length pathlist)) as [|Hlen]; [discriminate|].
  intros [= -> <- _].
  assert (b ∈ buckets_of pathlist) as Hb
    by (apply elem_of_elements; rewrite E; left).
  assert (size (buckets_of pathlist) = 1) as Hone.
  { assert (size (buckets_of pathlist) <> 0); [|lia].
    intros H0. pose proof (size_empty_inv (C:=gset string) _ H0) as Hempty.
    apply leibniz_equiv in Hempty. rewrite Hempty in Hb.
    exact (not_elem_of_empty (C:=gset string) b Hb). }
  assert (forall p, p ∈ pathlist -> fst (bucket_key p) = b) as Hall.
  { intros p Hp.
    exact (size_singleton_inv (C:=gset string) _ _ _ Hone
             (elem_of_buckets_of _ _ Hp) Hb). }
  pose proof (keys_of_Forall2 pathlist b Hall) as HF.
  split; [|split; [lia|split; [|exact HF]]].
  - intros ->. exact (not_elem_of_empty (C:=gset string) b Hb).
  - symmetry. exact (Forall2_length _ _ _ HF).
Qed.

Lemma get_batch_delete_key_list_ok_inv_witness :
  let s := mk_fs None DEFAULT_BLOCK_SIZE "readahead" ∅ in
  Forall2 (fun p k => split_path p = inr ("b", k))
    ["/b/d/x"; "cos://b/y"; "/b/d/x"] ["d/x"; "y"; "d/x"].
Proof.
  intros s.
  apply (get_batch_delete_key_list_ok_inv ["/b/d/x"; "cos://b/y"; "/b/d/x"] s s
           "b" ["d/x"; "y"; "d/x"]).
  vm_compute. reflexivity.
Defined.

(** X13: whatever the planner raises, the instance is as it was before the
    call; it raises [KeyError] for the empty list and only for it, and
    [ValueError] for every other list it rejects. *)
Theorem get_batch_delete_key_list_errors (pathlist : list string) (s s' : fs)
    (e : exn) :
  _get_batch_delete_key_list pathlist s = (inl e, s') ->
  s' = s /\
  ((pathlist = [] /\ exists msg, e = KeyError msg) \/
   (pathlist <> [] /\ exists msg, e = ValueError msg)).
Proof.
  rewrite get_batch_delete_key_list_unfold.
  destruct (decide (1 < size (buckets_of pathlist))) as [Hsize|Hsize].
  { intros [= <- <-]. split; [reflexivity|]. right. split; [|eauto].
    intros ->. change (buckets_of []) with (∅ : gset string) in Hsize.
    rewrite size_empty in Hsize. lia. }
  destruct (elements (buckets_of pathlist)) as [|b l] eqn:E.
  { intros [= <- <-]. split; [reflexivity|]. left. split; [|eauto].
    apply buckets_of_nil_inv, leibniz_equiv, elements_empty_inv, E. }
  destruct (decide (1000 < length pathlist)) as [Hlen|Hlen]; [|discriminate].
  intros [= <- <-]. split; [reflexivity|]. right. split; [|eauto].
  intros ->. simpl in Hlen. lia.
Qed.

Lemma get_batch_delete_key_list_errors_witness :
  let s := mk_fs None DEFAULT_BLOCK_SIZE "readahead"
             {[ "a" := [mk_info "a/x" file 1] ]} in
  snd (_get_batch_delete_key_list ["/a/x"; "/b/y"] s) = s.
Proof.
  intros s.
  apply (proj1 (get_batch_delete_key_list_errors ["/a/x"; "/b/y"] s
                  (snd (_get_batch_delete_key_list ["/a/x"; "/b/y"] s))
                  (ValueError "Bulk delete files should refer to only one bucket")
                  eq_refl)).
Defined.

(** ** [_open]: the keyword arguments *)

(** X14: the file constructor never gets [cache_type] a second time inside
    the remaining keyword arguments; every other keyword argument is passed
    on as given; a [cache_type] given by the caller is the one used, whatever
    the filesystem's default. *)
Theorem open_cache_type_kwarg (self : fs) (path mode : string)
    (block_size : option Z) (autocommit : bool) (cache_options : option string)
    (kwargs : gmap string pyval) :
  let handle := _open self path mode block_size autocommit cache_options kwargs in
  file_kwargs handle !! "cache_type" = None /\
  (forall k : string, k <> "cache_type" -> file_kwargs handle !! k = kwargs !! k) /\
  (forall v, kwargs !! "cache_type" = Some v -> file_cache_type handle = v).
Proof.
  unfold _open, kwargs_pop.
  destruct (kwargs !! "cache_type") as [v|] eqn:E; cbn.
  - split; [apply lookup_delete_eq|]. split.
    + intros k Hk. apply lookup_delete_ne. congruence.
    + intros v' [= <-]. reflexivity.
  - split; [exact E|]. split; [reflexivity|discriminate].
Qed.

Lemma open_cache_type_kwarg_witness :
  let self := mk_fs None DEFAULT_BLOCK_SIZE "readahead" ∅ in
  let kwargs : gmap string pyval :=
    {[ "cache_type" := VStr "none"; "size" := VInt 7 ]} in
  let handle := _open self "bucket/key" "rb" None true None kwargs in
  file_cache_type handle = VStr "none" /\ file_kwargs handle !! "size" = Some (VInt 7).
Proof.
  intros self kwargs handle.
  pose proof (open_cache_type_kwarg self "bucket/key" "rb" None true None kwargs) as H.
  cbv zeta in H. destruct H as (_ & Hother & Hgiven). split.
  - apply Hgiven. reflexivity.
  - subst handle. rewrite (Hother "size"); [reflexivity|discriminate].
Defined.

(** ** [touch]: the existence check *)

(** X15: with [truncate] true, [touch] does not run the existence check: its
    outcome is the same whatever [exists] would do.  With [truncate] false, an
    error raised by the existence check is the outcome of [touch]: nothing is
    invalidated and no write is attempted. *)
Theorem touch_exists_usage (fs_exists fs_exists' : string -> M bool)
    (open_wb_close open_wb_close' : string -> gmap string pyval -> M unit)
    (path : string) (kwargs : gmap string pyval) (s : fs) :
  touch fs_exists open_wb_close path true kwargs s
  = touch fs_exists' open_wb_close path true kwargs s /\
  (forall e s0, fs_exists path s = (inl e, s0) ->
     touch fs_exists open_wb_close path false kwargs s = (inl e, s0) /\
     touch fs_exists open_wb_close' path false kwargs s = (inl e, s0)).
Proof.
  split; [reflexivity|].
  intros e s0 He. unfold touch, bind. rewrite He. split; reflexivity.
Qed.

Lemma touch_exists_usage_witness :
  let s := mk_fs None DEFAULT_BLOCK_SIZE "readahead"
             {[ "bucket" := [mk_info "bucket/x" file 1] ]} in
  touch (fun _ => raise (ValueError "no endpoint")) store_open_wb_close
        "bucket/x" false ∅ s
  = (inl (ValueError "no endpoint"), s).
Proof.
  intros s.
  apply (proj2 (touch_exists_usage (fun _ => raise (ValueError "no endpoint"))
                  (store_exists ∅) store_open_wb_close store_open_wb_close
                  "bucket/x" ∅ s) (ValueError "no endpoint") s eq_refl).
Defined.

(** ** Construction and [set_endpoint] *)

(** X16: the default block size of a new filesystem is never 0: a missing
    value and 0 both give the built-in 5 MiB, any other value is kept. *)
Theorem init_block_size_not_zero (getenv : string -> option string)
    (endpoint key secret token : option string) (cache_type : string)
    (block_size : option Z) :
  let self := __init__ getenv endpoint key secret token cache_type block_size in
  _default_block_size self <> 0%Z /\
  (truthy_int block_size = false -> _default_block_size self = 5242880%Z) /\
  (truthy_int block_size = true -> Some (_default_block_size self) = block_size).
Proof.
  cbn. destruct block_size as [n|]; cbn.
  - destruct (Z.eqb_spec n 0) as [->|Hn]; cbn.
    + split; [discriminate|]. split; [reflexivity|discriminate].
    + split; [exact Hn|]. split; [discriminate|reflexivity].
  - split; [discriminate|]. split; [reflexivity|discriminate].
Qed.

Lemma init_block_size_not_zero_witness :
  _default_block_size
    (__init__ (fun _ => None) None None None None "readahead" (Some 0%Z))
  = 5242880%Z.
Proof.
  apply (proj1 (proj2 (init_block_size_not_zero (fun _ => None) None None None None
                         "readahead" (Some 0%Z)))).
  reflexivity.
Defined.

(** X17: [set_endpoint] succeeds exactly on a non-empty endpoint; it then
    stores that endpoint and leaves the rest of the instance alone, the
    listing cache included: listings cached before the change stay cached. *)
Theorem set_endpoint_ok_iff (endpoint : option string) (s : fs) :
  ((exists s', set_endpoint endpoint s = (inr tt, s')) <-> truthy_str endpoint = true) /\
  (forall s', set_endpoint endpoint s = (inr tt, s') ->
     _endpoint s' = endpoint /\
     dircache s' = dircache s /\
     _default_block_size s' = _default_block_size s /\
     _default_cache_type s' = _default_cache_type s).
Proof.
  unfold set_endpoint. destruct (truthy_str endpoint); cbn.
  - split; [split; [reflexivity|eauto]|].
    intros s' [= <-]. repeat split.
  - split; [split; [intros [s' H]|]; discriminate|discriminate].
Qed.

Lemma set_endpoint_ok_iff_witness :
  let s := mk_fs None DEFAULT_BLOCK_SIZE "readahead"
             {[ "bucket" := [mk_info "bucket/x" file 1] ]} in
  let s' := snd (set_endpoint (Some "http://cos.example") s) in
  _endpoint s' = Some "http://cos.example" /\
  dircache s' = {[ "bucket" := [mk_info "bucket/x" file 1] ]}.
Proof.
  intros s s'.
  destruct (proj2 (set_endpoint_ok_iff (Some "http://cos.example") s) s' eq_refl)
    as (He & Hd & _).
  split; [exact He | exact Hd].
Defined.

(** X18: setting a non-empty endpoint on a new filesystem gives the
    filesystem that would have been built with that endpoint in the first
    place; and of two successive settings the later one wins. *)
Theorem set_endpoint_composes (getenv : string -> option string)
    (endpoint key secret token : option string) (cache_type : string)
    (block_size : option Z) (e e' : string) (s : fs) :
  PyStr.truthy e = true -> PyStr.truthy e' = true ->
  set_endpoint (Some e)
    (__init__ getenv endpoint key secret token cache_type block_size)
  = (inr tt, __init__ getenv (Some e) key secret token cache_type block_size) /\
  (run set_endpoint (Some e) in set_endpoint (Some e')) s = set_endpoint (Some e') s.
Proof.
  intros He He'. unfold set_endpoint, bind, __init__, truthy_str.
  rewrite He, He'. split; reflexivity.
Qed.

Lemma set_endpoint_composes_witness :
  set_endpoint (Some "http://b.example")
    (__init__ (fun _ => Some "http://env.example") (Some "http://a.example")
       None None None "readahead" None)
  = (inr tt, __init__ (fun _ => Some "http://env.example") (Some "http://b.example")
               None None None "readahead" None).
Proof.
  apply (set_endpoint_composes (fun _ => Some "http://env.example")
           (Some "http://a.example") None None None "readahead" None
           "http://b.example" "http://b.example"
           (mk_fs None DEFAULT_BLOCK_SIZE "readahead" ∅));
    reflexivity.
Defined.

(** ** [invalidate_cache]: every directory above the path goes *)

(** Whether position [i] of [s] holds a slash. *)
Definition slash_at (i : nat) (s : string) : bool :=
  PyStr.startswith "/" (PyStr.slice_from i s).

Section Directories.

Lemma slash_at_nil (i : nat) : slash_at i "" = false.
Proof. destruct i; reflexivity. Qed.

Lemma slash_at_find (i : nat) (s : string) :
  slash_at i s = true -> PyStr.contains "/" s = true.
Proof.
  unfold PyStr.contains.
  revert i; induction s as [|c s IH]; intros i.
  - rewrite slash_at_nil. discriminate.
  - cbn [PyStr.find].
    destruct (PyStr.startswith "/" (String c s)) eqn:E; [reflexivity|].
    destruct i as [|i]; [unfold slash_at; cbn [PyStr.slice_from]; congruence|].
    intros H. specialize (IH i H).
    destruct (PyStr.find "/" s); [reflexivity|discriminate].
Qed.

Lemma slash_at_rfind (i : nat) (s : string) :
  slash_at i s = true -> exists j, PyStr.rfind "/" s = Some j /\ i <= j.
Proof.
  revert i; induction s as [|c s IH]; intros i.
  - rewrite slash_at_nil. discriminate.
  - cbn [PyStr.rfind]. destruct i as [|i].
    + unfold slash_at. cbn [PyStr.slice_from]. intros ->.
      destruct (PyStr.rfind "/" s) as [j|]; eexists; (split; [reflexivity|lia]).
    + intros H. destruct (IH i H) as (j & -> & Hle).
      exists (S j). split; [reflexivity|lia].
Qed.

Lemma slash_at_slice_to (i j : nat) (s : string) :
  i < j -> slash_at i s = true -> slash_at i (PyStr.slice_to j s) = true.
Proof.
  revert j s; induction i as [|i IH]; intros [|j] [|c s] Hlt; try lia;
    try (rewrite slash_at_nil; discriminate).
  - unfold slash_at. cbn [PyStr.slice_to PyStr.slice_from].
    rewrite !startswith_char. trivial.
  - unfold slash_at in *. cbn [PyStr.slice_to PyStr.slice_from].
    apply IH. lia.
Qed.

Lemma slice_to_slice_to (i j : nat) (s : string) :
  i <= j -> PyStr.slice_to i (PyStr.slice_to j s) = PyStr.slice_to i s.
Proof.
  revert j s; induction i as [|i IH]; intros [|j] [|c s] Hle; try lia;
    try reflexivity.
  cbn [PyStr.slice_to]. f_equal. apply IH. lia.
Qed.

Lemma slice_to_app (a b : string) :
  PyStr.slice_to (String.length a) (a ++ b) = a.
Proof.
  induction a as [|c a IH]; [destruct b; reflexivity|].
  change (String c a ++ b) with (String c (a ++ b)).
  cbn [String.length PyStr.slice_to]. f_equal. exact IH.
Qed.

Lemma slice_from_app (a b : string) :
  PyStr.slice_from (String.length a) (a ++ b) = b.
Proof.
  induction a as [|c a IH]; [reflexivity|].
  change (String c a ++ b) with (String c (a ++ b)).
  cbn [String.length PyStr.slice_from]. exact IH.
Qed.

Lemma parent_cut (p : string) (j : nat) :
  PyStr.startswith "cos://" p = false ->
  PyStr.contains "/" p = true -> PyStr.rfind "/" p = Some j ->
  _parent p = PyStr.slice_to j p.
Proof.
  intros Hplain Hc Hj. unfold _parent, root_marker, PyStr.rsplit1.
  rewrite (strip_protocol_plain p Hplain), Hc, Hj. cbn [hd].
  rewrite lstrip_no_chars. reflexivity.
Qed.

Lemma ancestors_head (q : string) : q <> "" -> q ∈ ancestors q.
Proof.
  destruct q as [|c q]; [congruence|]. intros _. simp ancestors. left.
Qed.

Lemma ancestors_dirs (p : string) :
  forall i : nat,
    PyStr.startswith "cos://" p = false -> slash_at i p = true ->
    PyStr.slice_to i p <> "" -> PyStr.slice_to i p ∈ ancestors p.
Proof.
  funelim (ancestors p); simp ancestors; intros i Hplain Hocc Hne.
  - rewrite slash_at_nil in Hocc. discriminate.
  - destruct (slash_at_rfind _ _ Hocc) as (j & Hj & Hle).
    pose proof (parent_cut _ j Hplain (slash_at_find _ _ Hocc) Hj) as Hpar.
    apply elem_of_cons. right. rewrite Hpar.
    match goal with IH : forall i : nat, _ |- _ => rewrite Hpar in IH; rename IH into IH' end.
    destruct (decide (i = j)) as [->|Hij]; [apply ancestors_head, Hne|].
    rewrite <- (slice_to_slice_to i j) by lia. apply IH'.
    + destruct (PyStr.startswith "cos://" (PyStr.slice_to j (String c rest))) eqn:E;
        [|reflexivity].
      rewrite (startswith_trans _ _ _ E (startswith_slice_to j _)) in Hplain.
      discriminate.
    + apply slash_at_slice_to; [lia|exact Hocc].
    + rewrite slice_to_slice_to by lia. exact Hne.
Qed.

End Directories.

(** X19: when the path, without protocol and leading slashes, does not itself
    start with the protocol and reads [dir/rest], invalidating it removes the
    listing of [dir]: every directory above the path loses its entry. *)
Theorem invalidate_cache_removes_directories (path dir rest : string) (s : fs) :
  PyStr.startswith "cos://" (cache_key path) = false ->
  cache_key path = dir ++ "/" ++ rest ->
  dircache (snd (invalidate_cache (Some path) s)) !! dir = None.
Proof.
  intros Hplain Hsplit. rewrite invalidate_cache_Some. cbn [snd dircache set_dircache].
  rewrite invalidated_lookup_popped. rewrite decide_True; [reflexivity|].
  unfold popped. apply elem_of_cons. right.
  destruct dir as [|c dir].
  - change ("" ++ "/" ++ rest) with (String "/" rest) in Hsplit.
    apply lstrip_head in Hsplit. discriminate.
  - rewrite <- (slice_to_app (String c dir) ("/" ++ rest)), <- Hsplit.
    apply ancestors_dirs; [exact Hplain| |].
    + unfold slash_at. rewrite Hsplit, slice_from_app. reflexivity.
    + rewrite Hsplit, slice_to_app. discriminate.
Qed.

Lemma invalidate_cache_removes_directories_witness :
  let s := mk_fs None DEFAULT_BLOCK_SIZE "readahead"
             {[ "bucket/a" := [mk_info "bucket/a/b" directory 0] ]} in
  dircache (snd (invalidate_cache (Some "cos://bucket/a/b/c") s)) !! "bucket/a" = None.
Proof.
  intros s.
  apply (invalidate_cache_removes_directories "cos://bucket/a/b/c" "bucket/a" "b/c" s);
    reflexivity.
Defined.

(** X20: for a path that does not itself start with the protocol,
    invalidating it with the protocol or one more slash in front does the
    same as invalidating it as it is. *)
Theorem invalidate_cache_ignores_protocol (rest : string) (s : fs) :
  PyStr.startswith "cos://" rest = false ->
  invalidate_cache (Some ("cos://" ++ rest)) s = invalidate_cache (Some rest) s /\
  invalidate_cache (Some ("/" ++ rest)) s = invalidate_cache (Some rest) s.
Proof.
  intros Hplain. destruct (cache_key_protocol rest Hplain) as [H1 H2].
  rewrite !invalidate_cache_Some. unfold invalidated. rewrite H1, H2.
  split; reflexivity.
Qed.

Lemma invalidate_cache_ignores_protocol_witness :
  let s := mk_fs None DEFAULT_BLOCK_SIZE "readahead"
             {[ "bucket" := [mk_info "bucket/x" file 1] ]} in
  invalidate_cache (Some ("cos://" ++ "bucket/x")) s
  = invalidate_cache (Some "bucket/x") s.
Proof.
  intros s. apply (invalidate_cache_ignores_protocol "bucket/x" s). reflexivity.
Defined.
